(** * News analyzer: the request handler of [app/main.py]

    A shallow embedding of [_normalize_text], [_scrape_with_newspaper] and
    [process_article], with the Python string operations they rely on
    ([str.split] without argument, [str.strip], [str.join], [len]) and the
    external collaborators (the newspaper scraper, the three analyzers and
    the related-article fetcher) taken as parameters. *)

From Equations Require Import Equations.
From Stdlib Require Import List Arith Lia Bool NArith String Ascii.
Import ListNotations.

Set Implicit Arguments.

(** ** Python strings *)

Module PyStr.

(** A Python [str] is a sequence of Unicode code points; [len] counts them. *)
Definition codepoint := N.
Definition str := list codepoint.

Definition len (s : str) : nat := List.length s.

(** A string literal of the source (ASCII only in [main.py]). *)
Definition lit (s : string) : str :=
  List.map N_of_ascii (list_ascii_of_string s).

(** The characters [str.split()] and [str.strip()] treat as whitespace:
    CPython's [Py_UNICODE_ISSPACE]. *)
Definition isspace (c : codepoint) : bool :=
  ((9 <=? c) && (c <=? 13) ||
   (28 <=? c) && (c <=? 32) ||
   (c =? 133) || (c =? 160) || (c =? 5760) ||
   (8192 <=? c) && (c <=? 8202) ||
   (c =? 8232) || (c =? 8233) || (c =? 8239) || (c =? 8287) ||
   (c =? 12288))%N.

Definition space : codepoint := 32%N.

(** Truthiness of a [str]: the empty string is falsy. *)
Definition truthy (s : str) : bool :=
  match s with [] => false | _ :: _ => true end.

(** [skip p s] advances over the longest prefix whose characters satisfy
    [p]; [scan p s] is that prefix. *)
Fixpoint skip (p : codepoint -> bool) (s : str) : str :=
  match s with
  | [] => []
  | c :: s' => if p c then skip p s' else s
  end.

Fixpoint scan (p : codepoint -> bool) (s : str) : str :=
  match s with
  | [] => []
  | c :: s' => if p c then c :: scan p s' else []
  end.

Definition nonspace (c : codepoint) : bool := negb (isspace c).

(** [s.split()]: skip whitespace, cut the next maximal run of
    non-whitespace characters, repeat until the end of the string. *)
Equations? split (s : str) : list str by wf (List.length s) lt :=
  split [] := [];
  split (c :: s') with isspace c => {
    | true := split s';
    | false := (c :: scan nonspace s') :: split (skip nonspace s') }.
Proof.
  clear. induction s' as [|d s' IH]; simpl; [lia|].
  destruct (nonspace d); simpl; lia.
Qed.

(** [sep.join(ws)]. *)
Fixpoint join (sep : str) (ws : list str) : str :=
  match ws with
  | [] => []
  | [w] => w
  | w :: ws' => w ++ sep ++ join sep ws'
  end.

(** [s.strip()]: drop the whitespace at both ends. *)
Definition lstrip (s : str) : str := skip isspace s.
Definition rstrip (s : str) : str := rev (skip isspace (rev s)).
Definition strip (s : str) : str := rstrip (lstrip s).

End PyStr.

Import PyStr.

(** ** The request handler *)

(** An instance of a Python [Exception] raised by a collaborator, as far
    as the handler and its caller can tell one from another:
    [exc_class e] is [type(e).__name__], [exc_str e] is what [str(e)] (and
    the f-string [{e}]) renders, and [exc_stop_iteration e] is
    [isinstance(e, StopIteration)], the one kind of exception that the
    interpreter does not let out of a coroutine or into a future as it
    is. *)
Record Exception := {
  exc_class : str;
  exc_str : str;
  exc_stop_iteration : bool
}.

(** How handler code ends when it yields no value: an exception leaves
    it, or it awaits a future that is never resolved. *)
Inductive Failure :=
| Raises (e : Exception)
| Hangs.

(** The collaborators [main.py] imports, by their interface: the newspaper
    [Article] (download, parse, then the [text] attribute, which may be
    [None]) and the four functions of the [app] package.  Each one either
    raises or returns.  The last field belongs to [asyncio]: what becomes
    of [await asyncio.to_thread(f, ...)] when [f] raised a [StopIteration]
    in its worker thread.  The event loop cannot set such an exception on
    the awaited future; depending on the interpreter version the future
    then stays unresolved for ever or fails with a [RuntimeError], so the
    answer is left to the environment. *)
Class Collaborators := {
  SentimentResult : Type;
  RelatedArticle : Type;
  newspaper_Article : str -> N -> Exception + option str;
  analyze_sentiment : str -> Exception + SentimentResult;
  classify_political_bias : str -> Exception + str;
  extract_topics : str -> Exception + list str;
  fetch_articles : list str -> Exception + list RelatedArticle;
  stop_iteration_in_worker : Exception -> Failure
}.

(** [class ArticleRequest(BaseModel)]: both fields default to [None]. *)
Record ArticleRequest := { text : option str; url : option str }.

(** One entry per call that leaves the handler. *)
Inductive Call :=
| CallScrape (url : str) (timeout : N)
| CallSentiment (text : str)
| CallBias (text : str)
| CallTopics (text : str)
| CallFetch (keywords : list str).

(** A run of handler code: the calls it made, in order, and either the
    way it failed or the value returned. *)
Record Run (A : Type) := { calls : list Call; outcome : Failure + A }.

Definition ret {A} (a : A) : Run A := {| calls := []; outcome := inr a |}.

Definition bind {A B} (m : Run A) (f : A -> Run B) : Run B :=
  match outcome m with
  | inl f => {| calls := calls m; outcome := inl f |}
  | inr a => {| calls := calls m ++ calls (f a); outcome := outcome (f a) |}
  end.

(** Calling a collaborator in the handler's own frame records the call
    and raises or returns as the collaborator does. *)
Definition call {A} (c : Call) (r : Exception + A) : Run A :=
  {| calls := [c];
     outcome := match r with
                | inl e => inl (Raises e)
                | inr a => inr a
                end |}.

(** [try: m  except Exception as e: ...]: an exception raised by [m],
    whatever its class, becomes a value. *)
Definition try_except {A} (m : Run A) : Run (Exception + A) :=
  {| calls := calls m;
     outcome := match outcome m with
                | inl (Raises e) => inr (inl e)
                | inl Hangs => inl Hangs
                | inr a => inr (inr a)
                end |}.

(** What a [StopIteration] that reaches the end of a coroutine is replaced
    by (PEP 479). *)
Definition coroutine_raised_StopIteration : Exception :=
  {| exc_class := lit "RuntimeError";
     exc_str := lit "coroutine raised StopIteration";
     exc_stop_iteration := false |}.

Definition leaving (e : Exception) : Exception :=
  if exc_stop_iteration e then coroutine_raised_StopIteration else e.

Definition leave (f : Failure) : Failure :=
  match f with
  | Raises e => Raises (leaving e)
  | Hangs => Hangs
  end.

(** The end of an [async def]: what the body returns is returned, an
    exception that leaves the body leaves the coroutine, a
    [StopIteration] as a [RuntimeError]. *)
Definition leave_coroutine {A} (m : Run A) : Run A :=
  {| calls := calls m;
     outcome := match outcome m with
                | inl f => inl (leave f)
                | inr a => inr a
                end |}.

Declare Scope run_scope.
Delimit Scope run_scope with run.
Notation "x <- m ;; k" := (bind m (fun x => k))
  (at level 61, m at next level, right associativity) : run_scope.
Notation "' p <- m ;; k" := (bind m (fun x => match x with p => k end))
  (at level 61, p pattern, m at next level, right associativity) : run_scope.

(** The three units of work handed to [asyncio.gather]. *)
Inductive Task := TSentiment | TBias | TTopics.

(** The worker threads finish in an order the handler does not control:
    one of the six orders of three tasks, named by the order of
    completion. *)
Inductive Schedule := SBT | STB | BST | BTS | TSB | TBS.

Definition completion (o : Schedule) : list Task :=
  match o with
  | SBT => [TSentiment; TBias; TTopics]
  | STB => [TSentiment; TTopics; TBias]
  | BST => [TBias; TSentiment; TTopics]
  | BTS => [TBias; TTopics; TSentiment]
  | TSB => [TTopics; TSentiment; TBias]
  | TBS => [TTopics; TBias; TSentiment]
  end.

Fixpoint first_failure (l : list (option Exception)) : option Exception :=
  match l with
  | [] => None
  | Some e :: _ => Some e
  | None :: l' => first_failure l'
  end.


(** The exception a task finished with, if it finished with one. *)
Definition raised {A} (r : Failure + A) : option Exception :=
  match r with
  | inl (Raises e) => Some e
  | inl Hangs | inr _ => None
  end.

(** [await asyncio.gather(a, b, c)] without [return_exceptions], on the
    three tasks as they end: the first task to finish with an exception
    makes the whole [gather] raise it; when none raises and all three
    return, the results come back in the order of the arguments, whatever
    the order of completion; and when none raises but one never finishes,
    neither does [gather]. *)
Definition gather {A B C} (o : Schedule)
    (a : Failure + A) (b : Failure + B) (c : Failure + C)
  : Failure + (A * B * C) :=
  let of_task t :=
    match t with
    | TSentiment => raised a
    | TBias => raised b
    | TTopics => raised c
    end in
  match first_failure (List.map of_task (completion o)) with
  | Some e => inl (Raises e)
  | None =>
    match a, b, c with
    | inr x, inr y, inr z => inr (x, y, z)
    | _, _, _ => inl Hangs
    end
  end.

(** The successful responses ([note] only on the short-text path) and the
    error response [{"error": msg}]. *)
Record Analysis {env : Collaborators} := {
  keywords : list str;
  sentiment : SentimentResult;
  bias : str;
  related_articles : list RelatedArticle;
  note : option str
}.

Inductive Response {env : Collaborators} :=
| Success (a : Analysis)
| Error (error : str).

Section Handler.

Context {env : Collaborators}.
Local Open Scope run_scope.

(** [art.text or ""] and [s or ""]. *)
Definition or_empty (s : option str) : str :=
  match s with
  | Some t => t
  | None => []
  end.

(** [_scrape_with_newspaper(url, timeout=7)]: the article text as the
    library extracted it, trimmed; whatever the library raises is raised. *)
Definition _scrape_with_newspaper (url : str) (timeout : N) : Run str :=
  art_text <- call (CallScrape url timeout) (newspaper_Article url timeout) ;;
  ret (strip (or_empty art_text)).

Definition default_timeout : N := 7.

(** [" ".join((s or "").split())]. *)
Definition _normalize_text (s : option str) : str :=
  join [space] (split (or_empty s)).

(** [x and x.strip()] as a condition, for an optional field [x]. *)
Definition given (x : option str) : bool :=
  match x with
  | Some t => truthy t && truthy (strip t)
  | None => false
  end.

(** Step 1 of [process_article], "pick source": the raw text, or the error
    response the handler returns at once. *)
Definition pick_source (req : ArticleRequest) : Run (Response + str) :=
  if given (text req) then
    ret (inr (strip (or_empty (text req))))
  else if given (url req) then
    r <- try_except (_scrape_with_newspaper (strip (or_empty (url req)))
                                            default_timeout) ;;
    match r with
    | inr raw_text => ret (inr raw_text)
    | inl e =>
      ret (inl (Error (lit "Failed to extract article from URL: "
                         ++ exc_str e)))
    end
  else
    ret (inl (Error (lit "Please provide either text or a valid URL."))).

(** How [asyncio.to_thread(f, ...)] ends for the coroutine that awaits
    it, from how [f] ended in its worker thread: a result and an exception
    are handed over as they are, but for a [StopIteration]. *)
Definition in_worker {A} (r : Exception + A) : Failure + A :=
  match r with
  | inr a => inr a
  | inl e =>
    if exc_stop_iteration e then inl (stop_iteration_in_worker e)
    else inl (Raises e)
  end.

(** [await asyncio.to_thread(f, ...)] on its own. *)
Definition call_in_thread {A} (c : Call) (r : Exception + A) : Run A :=
  {| calls := [c]; outcome := in_worker r |}.

(** Step 2: the three [asyncio.to_thread] calls handed to [gather]; all
    three are dispatched to worker threads before any result is awaited. *)
Definition dispatch (o : Schedule) (text : str)
  : Run (SentimentResult * str * list str) :=
  {| calls := [CallSentiment text; CallBias text; CallTopics text];
     outcome := gather o (in_worker (analyze_sentiment text))
                         (in_worker (classify_political_bias text))
                         (in_worker (extract_topics text)) |}.

Definition short_note : str :=
  lit "Input is quite short; topic extraction is less reliable on short texts.".

(** The rest of [process_article], from [text = _normalize_text(raw_text)]
    to the end of the coroutine: nothing here catches an exception, so
    one that is raised leaves the coroutine.  On the short path
    [analyze_sentiment] is called in the coroutine's own frame; on the
    full path the analyzers and the fetch run in worker threads. *)
Definition analyze (o : Schedule) (raw_text : str) : Run Response :=
  leave_coroutine
    (let text := _normalize_text (Some raw_text) in
     if len text <? 200 then
       s <- call (CallSentiment text) (analyze_sentiment text) ;;
       ret (Success {| keywords := [lit "news"; lit "world"; lit "article"];
                       sentiment := s;
                       bias := lit "center";
                       related_articles := [];
                       note := Some short_note |})
     else
       '(s, b, k) <- dispatch o text ;;
       related <- call_in_thread (CallFetch k) (fetch_articles k) ;;
       ret (Success {| keywords := k;
                       sentiment := s;
                       bias := b;
                       related_articles := firstn 7 related;
                       note := None |})).

(** [process_article(req)], under the completion order [o] of the worker
    threads. *)
Definition process_article (req : ArticleRequest) (o : Schedule)
  : Run Response :=
  src <- pick_source req ;;
  match src with
  | inl response => ret response
  | inr raw_text => analyze o raw_text
  end.

End Handler.

(** ** Vocabulary of the properties *)

(** The specification's wording of normalization, "collapse any run of
    whitespace characters to a single space and strip leading and trailing
    whitespace", written independently of [split] and [join]. *)
Equations? collapse_runs (s : str) : str by wf (List.length s) lt :=
  collapse_runs [] := [];
  collapse_runs (c :: s') with isspace c => {
    | true := space :: collapse_runs (skip isspace s');
    | false := c :: collapse_runs s' }.
Proof.
  clear. induction s' as [|d s' IH]; simpl; [lia|].
  destruct (isspace d); simpl; lia.
Qed.

Definition spec_normalize (s : str) : str := strip (collapse_runs s).

(** Every whitespace character of [t] is a space that stands before a
    non-whitespace character. *)
Fixpoint single_spaced (t : str) : bool :=
  match t with
  | [] => true
  | c :: t' =>
    (if isspace c
     then (c =? space)%N && match t' with d :: _ => nonspace d | [] => false end
     else true) && single_spaced t'
  end.

(** Every whitespace character of [t] is a space and no two are adjacent
    (one may still stand at the end). *)
Fixpoint runs_collapsed (t : str) : bool :=
  match t with
  | [] => true
  | c :: t' =>
    (if isspace c
     then (c =? space)%N && match t' with d :: _ => nonspace d | [] => true end
     else true) && runs_collapsed t'
  end.

(** A word: not empty and free of whitespace. *)
Definition word (w : str) : Prop := w <> [] /\ forallb nonspace w = true.

(** Normalized text: no whitespace at either end and none inside but
    single spaces. *)
Definition is_normalized (t : str) : bool :=
  match t with [] => true | c :: _ => nonspace c end && single_spaced t.

(** An optional request field that is absent, or blank once trimmed. *)
Definition blank (x : option str) : Prop :=
  match x with
  | None => True
  | Some t => strip t = []
  end.

Definition is_analysis_call (c : Call) : bool :=
  match c with
  | CallSentiment _ | CallBias _ | CallTopics _ => true
  | _ => false
  end.

Definition is_fetch_call (c : Call) : bool :=
  match c with CallFetch _ => true | _ => false end.

Definition is_scrape_call (c : Call) : bool :=
  match c with CallScrape _ _ => true | _ => false end.

(** The short-text fallback response around a sentiment result. *)
Definition fallback {env : Collaborators} (s : SentimentResult) : Response :=
  Success {| keywords := [lit "news"; lit "world"; lit "article"];
             sentiment := s;
             bias := lit "center";
             related_articles := [];
             note := Some short_note |}.

(** ** Concrete requests and collaborators for the examples *)

Definition download_failed : Exception :=
  {| exc_class := lit "ArticleException";
     exc_str := lit "Article `download()` failed with 404 Client Error";
     exc_stop_iteration := false |}.

Definition model_failed : Exception :=
  {| exc_class := lit "RuntimeError";
     exc_str := lit "model is not loaded";
     exc_stop_iteration := false |}.

(** Collaborators that answer every call the same way: the scraper, the
    sentiment analyzer and the topic extractor as the example chooses, the
    bias classifier with "left" and the fetch with ten articles. *)
Definition fixed_collaborators
    (scraped : Exception + option str)
    (sentiment_answer : Exception + str)
    (topics : Exception + list str)
  : Collaborators :=
  {| SentimentResult := str;
     RelatedArticle := N;
     newspaper_Article := fun _ _ => scraped;
     analyze_sentiment := fun _ => sentiment_answer;
     classify_political_bias := fun _ => inr (lit "left");
     extract_topics := fun _ => topics;
     fetch_articles := fun _ => inr [1; 2; 3; 4; 5; 6; 7; 8; 9; 10]%N;
     stop_iteration_in_worker := fun _ => Hangs |}.

Definition short_article : str := lit "  Markets   rallied today. ".

Definition long_article : str :=
  lit "The central bank raised interest rates on Tuesday for the third time this year, citing persistent inflation and a tight labour market,   while analysts warned that further increases could slow growth across the region and weigh on household spending. ".

Definition dead_link : str := lit " https://example.com/dead-link ".

Definition healthy : Collaborators :=
  fixed_collaborators (inr (Some (lit "  ")))
                      (inr (lit "positive"))
                      (inr [lit "economy"; lit "rates"]).

Definition unreachable_site : Collaborators :=
  fixed_collaborators (inl download_failed)
                      (inr (lit "positive"))
                      (inr [lit "economy"; lit "rates"]).




Definition classifier_failed : Exception :=
  {| exc_class := lit "ValueError";
     exc_str := lit "input is not a string";
     exc_stop_iteration := false |}.

(** A [StopIteration], as an exhausted iterator raises it. *)
Definition iterator_exhausted : Exception :=
  {| exc_class := lit "StopIteration";
     exc_str := [];
     exc_stop_iteration := true |}.

(** A sentiment analyzer that lets a [StopIteration] out. *)
Definition sentiment_exhausted : Collaborators :=
  fixed_collaborators (inr None) (inl iterator_exhausted)
                      (inr [lit "economy"; lit "rates"]).


(** The sentiment analyzer and the bias classifier both failing. *)
Definition analyzers_down : Collaborators :=
  {| SentimentResult := str;
     RelatedArticle := N;
     newspaper_Article := fun _ _ => inr None;
     analyze_sentiment := fun _ => inl model_failed;
     classify_political_bias := fun _ => inl classifier_failed;
     extract_topics := fun _ => inr [lit "economy"; lit "rates"];
     fetch_articles := fun _ => inr [1; 2; 3]%N;
     stop_iteration_in_worker := fun _ => Hangs |}.

(** A site whose page holds the short article. *)
Definition article_site : Collaborators :=
  fixed_collaborators (inr (Some short_article))
                      (inr (lit "positive"))
                      (inr [lit "economy"; lit "rates"]).

Definition respaced_article : str := lit "Markets rallied     today.   ".

(** ** Facts about the string operations *)

Example split_ex :
  split (lit "  a  b c ") = [lit "a"; lit "b"; lit "c"].
Proof. reflexivity. Qed.

Lemma skip_length p s : List.length (skip p s) <= List.length s.
Proof.
  induction s as [|c s IH]; simpl; [lia|].
  destruct (p c); simpl; lia.
Qed.

Lemma isspace_space : isspace space = true.
Proof. reflexivity. Qed.

Lemma scan_skip p s : scan p s ++ skip p s = s.
Proof.
  induction s as [|c s IH]; simpl; [reflexivity|].
  destruct (p c); simpl; [now rewrite IH | reflexivity].
Qed.

Lemma scan_all p s : forallb p (scan p s) = true.
Proof.
  induction s as [|c s IH]; simpl; [reflexivity|].
  destruct (p c) eqn:E; simpl; [now rewrite E | reflexivity].
Qed.

Lemma skip_all p s : forallb p s = true -> skip p s = [].
Proof.
  induction s as [|c s IH]; simpl; [reflexivity|].
  destruct (p c); simpl; [assumption | discriminate].
Qed.

Lemma skip_nil_all p s : skip p s = [] -> forallb p s = true.
Proof.
  induction s as [|c s IH]; simpl; [reflexivity|].
  destruct (p c); simpl; [assumption | discriminate].
Qed.

(** What is left after [skip p] starts with a character that fails [p]. *)
Lemma skip_head p s c r : skip p s = c :: r -> p c = false.
Proof.
  induction s as [|d s IH]; simpl; [discriminate|].
  destruct (p d) eqn:E; [assumption|].
  intros [= <- _]. exact E.
Qed.

Lemma skip_app_stop p w r :
  forallb p w = true ->
  match r with [] => True | d :: _ => p d = false end ->
  skip p (w ++ r) = r /\ scan p (w ++ r) = w.
Proof.
  intros Hw Hr. induction w as [|c w IH]; simpl in *.
  - destruct r as [|d r]; simpl; [now split|]. now rewrite Hr.
  - apply andb_true_iff in Hw as [Hc Hw]. rewrite Hc.
    destruct (IH Hw) as [-> ->]. now split.
Qed.

Lemma skip_snoc p l c :
  skip p (l ++ [c]) =
  match skip p l with
  | [] => if p c then [] else [c]
  | d :: r => (d :: r) ++ [c]
  end.
Proof.
  induction l as [|d l IH]; simpl; [reflexivity|].
  destruct (p d); [exact IH | reflexivity].
Qed.

(** [rstrip] read from the left. *)
Lemma rstrip_cons c s :
  rstrip (c :: s) =
  match rstrip s with
  | [] => if isspace c then [] else [c]
  | d :: r => c :: d :: r
  end.
Proof.
  unfold rstrip. simpl rev. rewrite skip_snoc.
  destruct (skip isspace (rev s)) as [|d r] eqn:E; simpl.
  - now destruct (isspace c).
  - rewrite rev_app_distr. simpl.
    destruct (rev r ++ [d]) as [|x y] eqn:E'; [|reflexivity].
    now destruct (rev r).
Qed.

Lemma rstrip_head s d r : rstrip s = d :: r -> exists s', s = d :: s'.
Proof.
  destruct s as [|c s]; [discriminate|].
  rewrite rstrip_cons. destruct (rstrip s).
  - destruct (isspace c); [discriminate|]. intros [= <- _]. now exists s.
  - intros [= <- _]. now exists s.
Qed.

(** A string is its [rstrip] followed by whitespace only. *)
Lemma rstrip_decompose s :
  exists w, s = rstrip s ++ w /\ forallb isspace w = true.
Proof.
  exists (rev (scan isspace (rev s))). split.
  - unfold rstrip. rewrite <- rev_app_distr, scan_skip. now rewrite rev_involutive.
  - rewrite forallb_forall. intros x Hx. apply in_rev in Hx.
    pose proof (scan_all isspace (rev s)) as Ha.
    rewrite forallb_forall in Ha. now apply Ha.
Qed.

Lemma strip_blank s : forallb isspace s = true -> strip s = [].
Proof.
  intros Hs. unfold strip, lstrip. now rewrite (skip_all _ _ Hs).
Qed.

(** Induction on the length of a string, for the functions that recurse on
    what [skip] leaves. *)
Lemma length_ind {A} (P : list A -> Prop) :
  (forall s, (forall t, List.length t < List.length s -> P t) -> P s) ->
  forall s, P s.
Proof.
  intros step s.
  assert (G : forall n t, List.length t < n -> P t).
  { induction n as [|n IH]; intros t Ht; [lia|].
    apply step. intros u Hu. apply IH. lia. }
  apply (G (S (List.length s))). lia.
Qed.

Lemma split_space c s : isspace c = true -> split (c :: s) = split s.
Proof. intros E. simp split. rewrite E. reflexivity. Qed.

Lemma split_nonspace c s :
  isspace c = false ->
  split (c :: s) = (c :: scan nonspace s) :: split (skip nonspace s).
Proof. intros E. simp split. rewrite E. reflexivity. Qed.

Lemma split_lstrip s : split (lstrip s) = split s.
Proof.
  unfold lstrip. induction s as [|c s IH]; simpl; [reflexivity|].
  destruct (isspace c) eqn:E; [|reflexivity].
  now rewrite split_space.
Qed.

Lemma split_blank w : forallb isspace w = true -> split w = [].
Proof.
  intros Hw. rewrite <- split_lstrip. unfold lstrip.
  now rewrite (skip_all _ _ Hw).
Qed.

Lemma blank_head w :
  forallb isspace w = true ->
  match w with [] => True | d :: _ => nonspace d = false end.
Proof.
  destruct w as [|d w]; simpl; [trivial|].
  intros Hw. apply andb_true_iff in Hw as [Hd _].
  unfold nonspace. now rewrite Hd.
Qed.

Lemma scan_app_blank s w :
  forallb isspace w = true -> scan nonspace (s ++ w) = scan nonspace s.
Proof.
  intros Hw. induction s as [|c s IH]; simpl.
  - destruct w as [|d w]; [reflexivity|].
    simpl. now rewrite (blank_head _ Hw).
  - destruct (nonspace c); [now rewrite IH | reflexivity].
Qed.

Lemma skip_app_blank s w :
  forallb isspace w = true ->
  skip nonspace (s ++ w) = skip nonspace s ++ w.
Proof.
  intros Hw. induction s as [|c s IH]; simpl.
  - destruct w as [|d w]; [reflexivity|].
    simpl. now rewrite (blank_head _ Hw).
  - destruct (nonspace c); [exact IH | reflexivity].
Qed.

Lemma split_app_blank w :
  forallb isspace w = true -> forall s, split (s ++ w) = split s.
Proof.
  intros Hw s. induction s as [s IH] using length_ind.
  destruct s as [|c s]; simpl.
  - rewrite split_blank by assumption. now simp split.
  - destruct (isspace c) eqn:E.
    + rewrite !split_space by assumption. apply IH. simpl. lia.
    + rewrite !split_nonspace by assumption.
      rewrite scan_app_blank, skip_app_blank by assumption.
      f_equal. apply IH. pose proof (skip_length nonspace s). simpl. lia.
Qed.

Lemma split_rstrip s : split (rstrip s) = split s.
Proof.
  destruct (rstrip_decompose s) as [w [Hs Hw]].
  rewrite Hs at 2. now rewrite split_app_blank.
Qed.

Lemma split_strip s : split (strip s) = split s.
Proof. unfold strip. now rewrite split_rstrip, split_lstrip. Qed.

Lemma split_words s : Forall word (split s).
Proof.
  induction s as [s IH] using length_ind.
  destruct s as [|c s]; [simp split; constructor|].
  destruct (isspace c) eqn:E.
  - rewrite split_space by assumption. apply IH. simpl. lia.
  - rewrite split_nonspace by assumption. constructor.
    + split; [discriminate|]. simpl. unfold nonspace at 1. rewrite E.
      apply scan_all.
    + apply IH. pose proof (skip_length nonspace s). simpl. lia.
Qed.

Lemma split_word_app w r :
  word w ->
  match r with [] => True | d :: _ => isspace d = true end ->
  split (w ++ r) = w :: split r.
Proof.
  intros [Hne Hw] Hr. destruct w as [|c w]; [contradiction|].
  simpl in Hw. apply andb_true_iff in Hw as [Hc Hw].
  unfold nonspace in Hc. apply negb_true_iff in Hc.
  simpl. rewrite split_nonspace by assumption.
  destruct (skip_app_stop nonspace w r Hw) as [-> ->]; [|reflexivity].
  destruct r as [|d r]; [trivial|]. unfold nonspace. now rewrite Hr.
Qed.

(** Splitting what [join] built gives the words back. *)
Lemma split_join ws : Forall word ws -> split (join [space] ws) = ws.
Proof.
  induction 1 as [|w ws Hw Hws IH]; [reflexivity|].
  destruct ws as [|w' ws].
  - simpl. rewrite <- (app_nil_r w) at 1.
    rewrite split_word_app; [now simp split | assumption | exact I].
  - change (join [space] (w :: w' :: ws))
      with (w ++ space :: join [space] (w' :: ws)).
    rewrite split_word_app; [|assumption|reflexivity].
    rewrite split_space by reflexivity. now rewrite IH.
Qed.

(** *** The specification's wording against [split] and [join] *)

Lemma collapse_space c s :
  isspace c = true ->
  collapse_runs (c :: s) = space :: collapse_runs (skip isspace s).
Proof. intros E. simp collapse_runs. rewrite E. reflexivity. Qed.

Lemma collapse_nonspace c s :
  isspace c = false -> collapse_runs (c :: s) = c :: collapse_runs s.
Proof. intros E. simp collapse_runs. rewrite E. reflexivity. Qed.

Lemma scan_collapse s :
  scan nonspace (collapse_runs s) = scan nonspace s.
Proof.
  induction s as [|c s IH]; [reflexivity|].
  destruct (isspace c) eqn:E.
  - rewrite collapse_space by assumption. simpl.
    unfold nonspace. now rewrite E.
  - rewrite collapse_nonspace by assumption. simpl.
    unfold nonspace at 1 3. rewrite E. simpl. now rewrite IH.
Qed.

Lemma skip_collapse s :
  skip nonspace (collapse_runs s) = collapse_runs (skip nonspace s).
Proof.
  induction s as [|c s IH]; [reflexivity|].
  destruct (isspace c) eqn:E.
  - rewrite collapse_space by assumption. simpl.
    unfold nonspace. rewrite E. simpl. now rewrite collapse_space.
  - rewrite collapse_nonspace by assumption. simpl.
    unfold nonspace at 1 3. rewrite E. simpl. exact IH.
Qed.

(** Collapsing the runs does not change the words. *)
Lemma split_collapse s : split (collapse_runs s) = split s.
Proof.
  induction s as [s IH] using length_ind.
  destruct s as [|c s]; [reflexivity|].
  destruct (isspace c) eqn:E.
  - rewrite collapse_space by assumption.
    rewrite !split_space by (assumption || reflexivity).
    rewrite IH by (pose proof (skip_length isspace s); simpl; lia).
    apply split_lstrip.
  - rewrite collapse_nonspace by assumption.
    rewrite !split_nonspace by assumption.
    rewrite scan_collapse, skip_collapse. f_equal.
    apply IH. pose proof (skip_length nonspace s). simpl. lia.
Qed.

Lemma collapse_runs_collapsed s : runs_collapsed (collapse_runs s) = true.
Proof.
  induction s as [s IH] using length_ind.
  destruct s as [|c s]; [reflexivity|].
  destruct (isspace c) eqn:E.
  - rewrite collapse_space by assumption.
    assert (Hlen : List.length (skip isspace s) < List.length (c :: s))
      by (pose proof (skip_length isspace s); simpl; lia).
    specialize (IH _ Hlen). simpl. rewrite IH, andb_true_r.
    destruct (skip isspace s) as [|d r] eqn:Hs; [reflexivity|].
    apply skip_head in Hs. rewrite collapse_nonspace by assumption.
    unfold nonspace. now rewrite Hs.
  - rewrite collapse_nonspace by assumption. simpl. rewrite E. simpl.
    apply IH. simpl. lia.
Qed.

Lemma runs_collapsed_tail c t :
  runs_collapsed (c :: t) = true -> runs_collapsed t = true.
Proof. simpl. intros Ht. now apply andb_true_iff in Ht as [_ Ht]. Qed.

Lemma runs_collapsed_lstrip t :
  runs_collapsed t = true -> runs_collapsed (lstrip t) = true.
Proof.
  unfold lstrip. induction t as [|c t IH]; simpl; [trivial|].
  intros Ht. destruct (isspace c) eqn:E.
  - apply IH. now apply andb_true_iff in Ht as [_ Ht].
  - simpl. now rewrite E.
Qed.

Lemma single_spaced_rstrip t :
  runs_collapsed t = true -> single_spaced (rstrip t) = true.
Proof.
  induction t as [|c t IH]; [reflexivity|].
  intros Ht. pose proof (runs_collapsed_tail _ _ Ht) as Ht'.
  specialize (IH Ht'). rewrite rstrip_cons.
  destruct (rstrip t) as [|d r] eqn:Hr.
  - destruct (isspace c) eqn:E; simpl; [reflexivity | now rewrite E].
  - destruct (rstrip_head _ Hr) as [t' ->].
    simpl in Ht. apply andb_true_iff in Ht as [Hc _].
    change (single_spaced (c :: d :: r))
      with ((if isspace c then (c =? space)%N && nonspace d else true)
            && single_spaced (d :: r)).
    now rewrite IH, andb_true_r.
Qed.

Lemma spec_normalize_normalized s : is_normalized (spec_normalize s) = true.
Proof.
  unfold spec_normalize, strip, is_normalized.
  rewrite single_spaced_rstrip
    by apply runs_collapsed_lstrip, collapse_runs_collapsed.
  rewrite andb_true_r.
  destruct (rstrip (lstrip (collapse_runs s))) as [|d r] eqn:Hr; [reflexivity|].
  destruct (rstrip_head _ Hr) as [t' Ht'].
  apply skip_head in Ht'. unfold nonspace. now rewrite Ht'.
Qed.

(** On text whose whitespace is single spaces before words, splitting and
    joining only drops the leading space, if there is one. *)
Lemma join_split_single_spaced t :
  single_spaced t = true -> join [space] (split t) = lstrip t.
Proof.
  induction t as [t IH] using length_ind.
  destruct t as [|c t]; [reflexivity|]. intros Ht.
  simpl in Ht. apply andb_true_iff in Ht as [Hc Ht].
  unfold lstrip. simpl. destruct (isspace c) eqn:E.
  - rewrite split_space by assumption. apply IH; [simpl; lia | assumption].
  - rewrite split_nonspace by assumption.
    assert (Hlen : List.length (skip nonspace t) < List.length (c :: t))
      by (pose proof (skip_length nonspace t); simpl; lia).
    assert (Hss : forall u, single_spaced u = true ->
                            single_spaced (skip nonspace u) = true).
    { induction u as [|x u IHu]; simpl; [trivial|]. intros Hu.
      destruct (nonspace x); [|exact Hu].
      apply IHu. now apply andb_true_iff in Hu as [_ Hu]. }
    specialize (IH _ Hlen (Hss _ Ht)).
    rewrite <- (scan_skip nonspace t) at 3.
    destruct (skip nonspace t) as [|d r] eqn:Hr.
    + simp split. simpl. now rewrite app_nil_r.
    + pose proof (skip_head _ _ Hr) as Hd.
      unfold nonspace in Hd. apply negb_false_iff in Hd.
      pose proof (Hss _ Ht) as Hdr. rewrite Hr in Hdr. simpl in Hdr.
      rewrite Hd in Hdr. apply andb_true_iff in Hdr as [Hdr _].
      apply andb_true_iff in Hdr as [Hsp Hnext].
      apply N.eqb_eq in Hsp. subst d.
      destruct r as [|e r]; [discriminate|].
      unfold nonspace in Hnext. apply negb_true_iff in Hnext.
      unfold lstrip in IH. simpl in IH. rewrite Hnext in IH.
      rewrite split_space in * by reflexivity.
      rewrite split_nonspace in * by assumption.
      change (join [space] ((c :: scan nonspace t) :: ?w :: ?ws))
        with ((c :: scan nonspace t) ++ space :: join [space] (w :: ws)).
      now rewrite IH.
Qed.

Lemma join_split_normalized t :
  is_normalized t = true -> join [space] (split t) = t.
Proof.
  unfold is_normalized. intros Ht. apply andb_true_iff in Ht as [Hh Ht].
  rewrite join_split_single_spaced by assumption.
  destruct t as [|c t]; [reflexivity|].
  unfold lstrip. simpl. unfold nonspace in Hh.
  apply negb_true_iff in Hh. now rewrite Hh.
Qed.

(** The code computes what the specification's wording describes. *)
Lemma normalize_refines_spec s :
  _normalize_text (Some s) = spec_normalize s.
Proof.
  unfold _normalize_text. simpl.
  rewrite <- (join_split_normalized _ (spec_normalize_normalized s)).
  unfold spec_normalize. now rewrite split_strip, split_collapse.
Qed.

(** ** Normalization *)

Lemma normalize_eq s : _normalize_text s = join [space] (split (or_empty s)).
Proof. reflexivity. Qed.

(** C8: [_normalize_text] is a total function of its argument, [None] and
    the empty string go to the empty string, and on every string it returns
    what the specification describes: each run of whitespace collapsed to
    one space and the whitespace at both ends stripped.  The result is in
    normal form (no whitespace at the ends, no whitespace inside but single
    spaces) and has the words of the input. *)
Theorem normalize_text_collapses_and_strips :
  _normalize_text None = [] /\
  _normalize_text (Some []) = [] /\
  (forall s, _normalize_text (Some s) = strip (collapse_runs s)) /\
  (forall s, is_normalized (_normalize_text s) = true) /\
  (forall s, split (_normalize_text (Some s)) = split s).
Proof.
  split; [reflexivity|]. split; [reflexivity|].
  split; [exact normalize_refines_spec|]. split.
  - intros [s|]; [|reflexivity].
    rewrite normalize_refines_spec. apply spec_normalize_normalized.
  - intros s. rewrite normalize_eq. simpl. apply split_join, split_words.
Qed.

(** C9: normalization is idempotent. *)
Theorem normalize_text_idempotent (s : option str) :
  _normalize_text (Some (_normalize_text s)) = _normalize_text s.
Proof.
  rewrite !normalize_eq. simpl.
  now rewrite split_join by apply split_words.
Qed.

(** ** The handler *)

Section HandlerFacts.

Context {env : Collaborators}.

Lemma strip_nonempty t : strip t <> [] -> truthy t = true.
Proof. destruct t; [intros E; now contradiction E | reflexivity]. Qed.

Lemma given_present t : strip t <> [] -> given (Some t) = true.
Proof.
  intros Ht. simpl. rewrite (strip_nonempty _ Ht).
  destruct (strip t); [contradiction | reflexivity].
Qed.

Lemma given_blank x : blank x -> given x = false.
Proof.
  destruct x as [t|]; simpl; [|reflexivity].
  intros ->. apply andb_false_r.
Qed.

Lemma bind_ret_l {A B} (a : A) (f : A -> Run B) : bind (ret a) f = f a.
Proof. unfold bind. simpl. now destruct (f a). Qed.

Lemma pick_source_text req t :
  text req = Some t -> strip t <> [] ->
  pick_source req = ret (inr (strip t)).
Proof.
  intros Et Ht. unfold pick_source.
  rewrite Et, (given_present _ Ht). reflexivity.
Qed.

Lemma pick_source_url req u :
  blank (text req) -> url req = Some u -> strip u <> [] ->
  pick_source req =
  {| calls := [CallScrape (strip u) 7];
     outcome :=
       match newspaper_Article (strip u) 7 with
       | inl e => inr (inl (Error (lit "Failed to extract article from URL: "
                                     ++ exc_str e)))
       | inr body => inr (inr (strip (or_empty body)))
       end |}.
Proof.
  intros Bt Eu Hu. unfold pick_source.
  rewrite (given_blank _ Bt), Eu, (given_present _ Hu).
  unfold _scrape_with_newspaper, try_except, bind, call, ret, default_timeout.
  simpl. now destruct (newspaper_Article (strip u) 7).
Qed.

Lemma pick_source_none req :
  blank (text req) -> blank (url req) ->
  pick_source req =
  ret (inl (Error (lit "Please provide either text or a valid URL."))).
Proof.
  intros Bt Bu. unfold pick_source.
  now rewrite (given_blank _ Bt), (given_blank _ Bu).
Qed.

(** Once the source is picked, the handler is [analyze] on the raw text. *)
Lemma process_article_picked req o raw :
  outcome (pick_source req) = inr (inr raw) ->
  process_article req o =
  {| calls := calls (pick_source req) ++ calls (analyze o raw);
     outcome := outcome (analyze o raw) |}.
Proof.
  intros E. unfold process_article, bind. now rewrite E.
Qed.

Lemma analyze_short o raw :
  len (_normalize_text (Some raw)) < 200 ->
  analyze o raw =
  {| calls := [CallSentiment (_normalize_text (Some raw))];
     outcome :=
       match analyze_sentiment (_normalize_text (Some raw)) with
       | inl e => inl (Raises (leaving e))
       | inr s => inr (fallback s)
       end |}.
Proof.
  intros Hlen. unfold analyze. apply Nat.ltb_lt in Hlen. rewrite Hlen.
  unfold leave_coroutine, bind, call, ret. simpl.
  now destruct (analyze_sentiment _).
Qed.

Lemma analyze_full o raw :
  200 <= len (_normalize_text (Some raw)) ->
  analyze o raw =
  let text := _normalize_text (Some raw) in
  match outcome (dispatch o text) with
  | inl f =>
    {| calls := [CallSentiment text; CallBias text; CallTopics text];
       outcome := inl (leave f) |}
  | inr (s, b, k) =>
    {| calls := [CallSentiment text; CallBias text; CallTopics text;
                 CallFetch k];
       outcome :=
         match in_worker (fetch_articles k) with
         | inl f => inl (leave f)
         | inr related =>
           inr (Success {| keywords := k; sentiment := s; bias := b;
                           related_articles := firstn 7 related;
                           note := None |})
         end |}
  end.
Proof.
  intros Hlen. unfold analyze. apply Nat.ltb_ge in Hlen. rewrite Hlen.
  unfold leave_coroutine, bind, call_in_thread, ret. cbv zeta.
  destruct (outcome (dispatch o _)) as [f|[[s b] k]]; [reflexivity|].
  cbn [outcome calls]. now destruct (in_worker (fetch_articles k)).
Qed.

(** The analysis sees the raw text through its normal form only. *)
Lemma analyze_normal_form o raw1 raw2 :
  _normalize_text (Some raw1) = _normalize_text (Some raw2) ->
  analyze o raw1 = analyze o raw2.
Proof. intros E. unfold analyze. now rewrite E. Qed.

Lemma in_worker_inr {A} (r : Exception + A) a :
  in_worker r = inr a <-> r = inr a.
Proof.
  destruct r as [e|x]; simpl.
  - destruct (exc_stop_iteration e); split; discriminate.
  - split; congruence.
Qed.

Lemma in_worker_ordinary {A} (e : Exception) :
  exc_stop_iteration e = false -> in_worker (A := A) (inl e) = inl (Raises e).
Proof. intros E. simpl. now rewrite E. Qed.

(** [gather] returns exactly when all three tasks return, and then with
    each result in its own position, whatever the schedule. *)
Lemma gather_all_return {A B C} o (a : A) (b : B) (c : C) :
  gather o (inr a) (inr b) (inr c) = inr (a, b, c).
Proof. now destruct o. Qed.

Lemma gather_inr_inv {A B C} o
    (a : Failure + A) (b : Failure + B) (c : Failure + C) x y z :
  gather o a b c = inr (x, y, z) -> a = inr x /\ b = inr y /\ c = inr z.
Proof.
  destruct a as [[ea|]|a], b as [[eb|]|b], c as [[ec|]|c], o;
    unfold gather; simpl; try discriminate;
    intros [= -> -> ->]; repeat split.
Qed.

Lemma dispatch_eq o txt :
  outcome (dispatch o txt) =
  gather o (in_worker (analyze_sentiment txt))
           (in_worker (classify_political_bias txt))
           (in_worker (extract_topics txt)).
Proof. reflexivity. Qed.

Lemma dispatch_all_return o txt s b k :
  analyze_sentiment txt = inr s ->
  classify_political_bias txt = inr b ->
  extract_topics txt = inr k ->
  outcome (dispatch o txt) = inr (s, b, k).
Proof.
  intros Hs Hb Hk. unfold dispatch. simpl. rewrite Hs, Hb, Hk.
  apply gather_all_return.
Qed.

Lemma dispatch_inr_inv o txt s b k :
  outcome (dispatch o txt) = inr (s, b, k) ->
  analyze_sentiment txt = inr s /\
  classify_political_bias txt = inr b /\
  extract_topics txt = inr k.
Proof.
  unfold dispatch. simpl. intros G. apply gather_inr_inv in G.
  destruct G as [Hs [Hb Hk]]. now rewrite !in_worker_inr in *.
Qed.



End HandlerFacts.

(** ** Properties of [process_article] *)

Section HandlerClaims.

Context {env : Collaborators}.

Lemma analyze_never_scrapes o raw c :
  In c (calls (analyze o raw)) -> is_scrape_call c = false.
Proof.
  destruct (Nat.lt_ge_cases (len (_normalize_text (Some raw))) 200) as [L|L].
  - rewrite (analyze_short o raw L). simpl. intros [<-|[]]. reflexivity.
  - rewrite (analyze_full o raw L). cbv zeta.
    destruct (outcome (dispatch o _)) as [e|[[s b] k]]; simpl;
      intuition (subst; reflexivity).
Qed.

(** The only responses the first step produces itself are errors. *)
Lemma pick_source_response req resp :
  outcome (pick_source req) = inr (inl resp) -> exists msg, resp = Error msg.
Proof.
  unfold pick_source.
  destruct (given (text req)); [discriminate|].
  destruct (given (url req)).
  - unfold _scrape_with_newspaper, try_except, bind, call, ret. simpl.
    destruct (newspaper_Article _ _); simpl; intros [= <-]; eauto.
  - simpl. intros [= <-]. eauto.
Qed.

(** When the sentiment analyzer raises on a short text, its exception
    leaves the handler (a [StopIteration] as the interpreter's
    [RuntimeError]): nothing in [process_article] catches it. *)
Lemma short_text_sentiment_raises req o raw e :
  outcome (pick_source req) = inr (inr raw) ->
  len (_normalize_text (Some raw)) < 200 ->
  analyze_sentiment (_normalize_text (Some raw)) = inl e ->
  outcome (process_article req o) = inl (Raises (leaving e)).
Proof.
  intros Hsrc Hlen Hs.
  rewrite (process_article_picked req o Hsrc), (analyze_short o raw Hlen).
  simpl. now rewrite Hs.
Qed.

(** C1: a request that resolves to normalized text shorter than 200
    characters gets the short-text fallback: the fixed keywords
    ["news", "world", "article"], bias "center", no related articles, a
    non-empty note, and as sentiment what the sentiment analyzer returns
    on that normalized text; the analyzer is the only call made after the
    source was picked. *)
Theorem short_text_fallback req o raw v :
  outcome (pick_source req) = inr (inr raw) ->
  len (_normalize_text (Some raw)) < 200 ->
  analyze_sentiment (_normalize_text (Some raw)) = inr v ->
  outcome (process_article req o) =
    inr (Success {| keywords := [lit "news"; lit "world"; lit "article"];
                    sentiment := v;
                    bias := lit "center";
                    related_articles := [];
                    note := Some short_note |}) /\
  short_note <> [] /\
  calls (process_article req o) =
    calls (pick_source req) ++ [CallSentiment (_normalize_text (Some raw))].
Proof.
  intros Hsrc Hlen Hs.
  rewrite (process_article_picked req o Hsrc), (analyze_short o raw Hlen).
  simpl. rewrite Hs. repeat split. discriminate.
Qed.

(** C2: on normalized text of 200 characters or more, when the three
    analyzers and the fetch return, each analyzer is called exactly once and
    on the same normalized text, the response carries each analyzer's
    result in its own field under every completion order, and it has no
    note. *)
Theorem full_pipeline_fields req o raw s b k related :
  outcome (pick_source req) = inr (inr raw) ->
  200 <= len (_normalize_text (Some raw)) ->
  analyze_sentiment (_normalize_text (Some raw)) = inr s ->
  classify_political_bias (_normalize_text (Some raw)) = inr b ->
  extract_topics (_normalize_text (Some raw)) = inr k ->
  fetch_articles k = inr related ->
  outcome (process_article req o) =
    inr (Success {| keywords := k;
                    sentiment := s;
                    bias := b;
                    related_articles := firstn 7 related;
                    note := None |}) /\
  calls (process_article req o) =
    calls (pick_source req) ++
    [CallSentiment (_normalize_text (Some raw));
     CallBias (_normalize_text (Some raw));
     CallTopics (_normalize_text (Some raw));
     CallFetch k] /\
  filter is_analysis_call (calls (process_article req o)) =
    [CallSentiment (_normalize_text (Some raw));
     CallBias (_normalize_text (Some raw));
     CallTopics (_normalize_text (Some raw))].
Proof.
  intros Hsrc Hlen Hs Hb Hk Hr.
  assert (Hpick : filter is_analysis_call (calls (pick_source req)) = []).
  { unfold pick_source in *.
    destruct (given (text req)); [reflexivity|].
    destruct (given (url req)); [|reflexivity].
    unfold _scrape_with_newspaper, try_except, bind, call, ret in *. simpl.
    now destruct (newspaper_Article _ _). }
  rewrite (process_article_picked req o Hsrc), (analyze_full o raw Hlen).
  cbv zeta. rewrite (dispatch_all_return o _ Hs Hb Hk). simpl.
  rewrite Hr, filter_app, Hpick. repeat split.
Qed.

(** C3: a successful response never lists more than 7 related articles,
    on either path and whatever the fetch returned. *)
Theorem related_articles_at_most_7 req o a :
  outcome (process_article req o) = inr (Success a) ->
  List.length (related_articles a) <= 7.
Proof.
  unfold process_article, bind.
  destruct (outcome (pick_source req)) as [e|[resp|raw]] eqn:Hsrc;
    cbn [outcome ret]; [discriminate| |].
  - destruct (pick_source_response req Hsrc) as [msg ->]. discriminate.
  - destruct (Nat.lt_ge_cases (len (_normalize_text (Some raw))) 200) as [L|L].
    + rewrite (analyze_short o raw L). simpl.
      destruct (analyze_sentiment _); [discriminate|].
      intros [= <-]. simpl. lia.
    + rewrite (analyze_full o raw L). cbv zeta.
      destruct (outcome (dispatch o _)) as [e|[[s b] k]]; cbn [outcome];
        [discriminate|].
      destruct (in_worker (fetch_articles k)) as [f|related]; [discriminate|].
      intros E.
      assert (Ea : related_articles a = firstn 7 related)
        by (injection E as E; now rewrite <- E).
      rewrite Ea. apply firstn_le_length.
Qed.


(** C5: a request whose text is present and not blank is analyzed on that
    text, trimmed; the url plays no part and the scraper is not called. *)
Theorem text_takes_precedence req o t :
  text req = Some t ->
  strip t <> [] ->
  process_article req o = analyze o (strip t) /\
  process_article req o = process_article {| text := Some t; url := None |} o /\
  forall u timeout, ~ In (CallScrape u timeout) (calls (process_article req o)).
Proof.
  intros Et Ht.
  assert (E : forall r, text r = Some t ->
                        process_article r o = analyze o (strip t)).
  { intros r Er. unfold process_article.
    rewrite (pick_source_text r Er Ht). now rewrite bind_ret_l. }
  rewrite (E req Et). split; [reflexivity|]. split.
  - symmetry. now apply E.
  - intros u timeout Hin. apply analyze_never_scrapes in Hin. discriminate.
Qed.

(** C6: with text and url both absent or blank, the handler answers
    [{"error": "Please provide either text or a valid URL."}] and calls
    nothing. *)
Theorem neither_text_nor_url req o :
  blank (text req) ->
  blank (url req) ->
  process_article req o =
    {| calls := [];
       outcome :=
         inr (Error (lit "Please provide either text or a valid URL.")) |}.
Proof.
  intros Bt Bu. unfold process_article.
  rewrite (pick_source_none req Bt Bu). reflexivity.
Qed.

(** C7: with no usable text and a url, when the scraper raises [e] the
    handler answers [{"error": "Failed to extract article from URL: " +
    str(e)}]; the scraper was called once and nothing else was. *)
Theorem scrape_failure_reported req o u e :
  blank (text req) ->
  url req = Some u ->
  strip u <> [] ->
  newspaper_Article (strip u) 7 = inl e ->
  process_article req o =
    {| calls := [CallScrape (strip u) 7];
       outcome :=
         inr (Error (lit "Failed to extract article from URL: "
                       ++ exc_str e)) |}.
Proof.
  intros Bt Eu Hu He. unfold process_article.
  rewrite (pick_source_url req Bt Eu Hu), He. reflexivity.
Qed.

(** C10: with no usable text and a url, when the scrape succeeds with an
    absent, empty or whitespace-only body, the handler answers with the
    short-text fallback, the sentiment being the analyzer's result on the
    empty string. *)
Theorem empty_scrape_falls_back req o u body v :
  blank (text req) ->
  url req = Some u ->
  strip u <> [] ->
  newspaper_Article (strip u) 7 = inr body ->
  forallb isspace (or_empty body) = true ->
  analyze_sentiment [] = inr v ->
  process_article req o =
    {| calls := [CallScrape (strip u) 7; CallSentiment []];
       outcome :=
         inr (Success {| keywords := [lit "news"; lit "world"; lit "article"];
                         sentiment := v;
                         bias := lit "center";
                         related_articles := [];
                         note := Some short_note |}) |}.
Proof.
  intros Bt Eu Hu Hbody Hws Hs. unfold process_article.
  rewrite (pick_source_url req Bt Eu Hu), Hbody, (strip_blank _ Hws).
  unfold bind. simpl outcome. cbv iota.
  assert (L : len (_normalize_text (Some [])) < 200)
    by (change (_normalize_text (Some [])) with (@nil codepoint); simpl; lia).
  rewrite (analyze_short o [] L).
  change (_normalize_text (Some [])) with (@nil codepoint).
  simpl. now rewrite Hs.
Qed.

End HandlerClaims.

(** ** The properties on concrete requests *)

Lemma short_text_fallback_witness :
  outcome (process_article (env := healthy)
             {| text := Some short_article; url := Some dead_link |} TBS) =
    inr (Success (@Build_Analysis healthy
           [lit "news"; lit "world"; lit "article"]
           (lit "positive") (lit "center") [] (Some short_note))) /\
  short_note <> [] /\
  calls (process_article (env := healthy)
           {| text := Some short_article; url := Some dead_link |} TBS) =
    [] ++ [CallSentiment (lit "Markets rallied today.")].
Proof.
  apply (short_text_fallback (env := healthy)
           {| text := Some short_article; url := Some dead_link |} TBS
           (raw := lit "Markets   rallied today.")).
  - vm_compute. reflexivity.
  - apply Nat.ltb_lt. vm_compute. reflexivity.
  - vm_compute. reflexivity.
Defined.

Lemma full_pipeline_fields_witness :
  outcome (process_article (env := healthy)
             {| text := Some long_article; url := None |} TBS) =
    inr (Success (@Build_Analysis healthy
           [lit "economy"; lit "rates"]
           (lit "positive") (lit "left") [1; 2; 3; 4; 5; 6; 7]%N None)) /\
  filter is_analysis_call
    (calls (process_article (env := healthy)
              {| text := Some long_article; url := None |} TBS)) =
    [CallSentiment (_normalize_text (Some (strip long_article)));
     CallBias (_normalize_text (Some (strip long_article)));
     CallTopics (_normalize_text (Some (strip long_article)))].
Proof.
  refine ((fun P => conj (proj1 P) (proj2 (proj2 P))) _).
  apply (full_pipeline_fields (env := healthy)
           {| text := Some long_article; url := None |} TBS
           (raw := strip long_article)
           (related := [1; 2; 3; 4; 5; 6; 7; 8; 9; 10]%N)).
  - vm_compute. reflexivity.
  - apply Nat.leb_le. vm_compute. reflexivity.
  - vm_compute. reflexivity.
  - vm_compute. reflexivity.
  - vm_compute. reflexivity.
  - vm_compute. reflexivity.
Defined.

Lemma related_articles_at_most_7_witness :
  List.length [1; 2; 3; 4; 5; 6; 7]%N <= 7.
Proof.
  apply (related_articles_at_most_7 (env := healthy)
           {| text := Some long_article; url := None |} SBT
           (a := @Build_Analysis healthy [lit "economy"; lit "rates"]
                   (lit "positive") (lit "left") [1; 2; 3; 4; 5; 6; 7]%N None)).
  vm_compute. reflexivity.
Defined.



Lemma text_takes_precedence_witness :
  process_article (env := unreachable_site)
    {| text := Some short_article; url := Some dead_link |} SBT =
  analyze (env := unreachable_site) SBT (strip short_article) /\
  ~ In (CallScrape (strip dead_link) 7)
       (calls (process_article (env := unreachable_site)
                 {| text := Some short_article; url := Some dead_link |}
                 SBT)).
Proof.
  destruct (text_takes_precedence (env := unreachable_site)
              {| text := Some short_article; url := Some dead_link |} SBT
              (t := short_article)) as [E [_ N]].
  - reflexivity.
  - discriminate.
  - split; [exact E | apply N].
Defined.

Lemma neither_text_nor_url_witness :
  process_article (env := healthy)
    {| text := Some (lit "   "); url := None |} SBT =
  {| calls := [];
     outcome :=
       inr (Error (lit "Please provide either text or a valid URL.")) |}.
Proof.
  apply (neither_text_nor_url (env := healthy)
           {| text := Some (lit "   "); url := None |} SBT).
  - vm_compute. reflexivity.
  - exact I.
Defined.

Lemma scrape_failure_reported_witness :
  process_article (env := unreachable_site)
    {| text := None; url := Some dead_link |} SBT =
  {| calls := [CallScrape (lit "https://example.com/dead-link") 7];
     outcome :=
       inr (Error (lit "Failed to extract article from URL: Article `download()` failed with 404 Client Error")) |}.
Proof.
  apply (scrape_failure_reported (env := unreachable_site)
           {| text := None; url := Some dead_link |} SBT
           (u := dead_link) (e := download_failed)).
  - exact I.
  - vm_compute. reflexivity.
  - discriminate.
  - vm_compute. reflexivity.
Defined.

Lemma empty_scrape_falls_back_witness :
  process_article (env := healthy)
    {| text := Some []; url := Some dead_link |} SBT =
  {| calls := [CallScrape (lit "https://example.com/dead-link") 7;
               CallSentiment []];
     outcome :=
       inr (Success (@Build_Analysis healthy
           [lit "news"; lit "world"; lit "article"]
           (lit "positive") (lit "center") [] (Some short_note))) |}.
Proof.
  apply (empty_scrape_falls_back (env := healthy)
           {| text := Some []; url := Some dead_link |} SBT
           (u := dead_link) (body := Some (lit "  "))).
  - vm_compute. reflexivity.
  - vm_compute. reflexivity.
  - discriminate.
  - vm_compute. reflexivity.
  - vm_compute. reflexivity.
  - vm_compute. reflexivity.
Defined.

(** ** More on normalization *)

Lemma rstrip_length s : List.length (rstrip s) <= List.length s.
Proof.
  unfold rstrip. rewrite length_rev.
  pose proof (skip_length isspace (rev s)) as L.
  now rewrite length_rev in L.
Qed.

Lemma strip_length s : List.length (strip s) <= List.length s.
Proof.
  unfold strip, lstrip.
  pose proof (rstrip_length (skip isspace s)).
  pose proof (skip_length isspace s). lia.
Qed.

Lemma collapse_runs_length s :
  List.length (collapse_runs s) <= List.length s.
Proof.
  induction s as [s IH] using length_ind.
  destruct s as [|c s]; [reflexivity|].
  destruct (isspace c) eqn:E.
  - rewrite collapse_space by assumption.
    pose proof (skip_length isspace s) as L.
    specialize (IH (skip isspace s)). simpl in *. lia.
  - rewrite collapse_nonspace by assumption.
    specialize (IH s). simpl in *. lia.
Qed.

Lemma filter_nonspace_blank w :
  forallb isspace w = true -> filter nonspace w = [].
Proof.
  induction w as [|c w IH]; simpl; [reflexivity|].
  intros Hw. apply andb_true_iff in Hw as [Hc Hw].
  unfold nonspace at 1. rewrite Hc. simpl. now apply IH.
Qed.

Lemma filter_nonspace_nil s :
  filter nonspace s = [] -> forallb isspace s = true.
Proof.
  induction s as [|c s IH]; simpl; [reflexivity|].
  unfold nonspace at 1. destruct (isspace c); simpl; [exact IH | discriminate].
Qed.

Lemma filter_nonspace_lstrip s :
  filter nonspace (lstrip s) = filter nonspace s.
Proof.
  unfold lstrip. induction s as [|c s IH]; simpl; [reflexivity|].
  destruct (isspace c) eqn:E; [|reflexivity].
  unfold nonspace at 2. rewrite E. simpl. exact IH.
Qed.

Lemma filter_nonspace_rstrip s :
  filter nonspace (rstrip s) = filter nonspace s.
Proof.
  destruct (rstrip_decompose s) as [w [Hs Hw]].
  rewrite Hs at 2.
  now rewrite filter_app, (filter_nonspace_blank _ Hw), app_nil_r.
Qed.

Lemma filter_nonspace_collapse s :
  filter nonspace (collapse_runs s) = filter nonspace s.
Proof.
  induction s as [s IH] using length_ind.
  destruct s as [|c s]; [reflexivity|].
  destruct (isspace c) eqn:E.
  - assert (Hc : nonspace c = false) by (unfold nonspace; now rewrite E).
    rewrite collapse_space by assumption.
    change (filter nonspace (space :: ?l)) with (filter nonspace l).
    cbn [filter]. rewrite Hc.
    rewrite IH by (pose proof (skip_length isspace s); simpl; lia).
    apply filter_nonspace_lstrip.
  - assert (Hc : nonspace c = true) by (unfold nonspace; now rewrite E).
    rewrite collapse_nonspace by assumption.
    cbn [filter]. rewrite Hc.
    now rewrite IH by (simpl; lia).
Qed.

Lemma strip_nil_blank s : strip s = [] -> forallb isspace s = true.
Proof.
  intros Hs. apply filter_nonspace_nil.
  rewrite <- filter_nonspace_lstrip, <- filter_nonspace_rstrip.
  fold (strip s). now rewrite Hs.
Qed.

Lemma skip_skip p s : skip p (skip p s) = skip p s.
Proof.
  induction s as [|c s IH]; simpl; [reflexivity|].
  destruct (p c) eqn:E; [exact IH|]. simpl. now rewrite E.
Qed.

Lemma strip_strip s : strip (strip s) = strip s.
Proof.
  unfold strip at 1.
  assert (L : lstrip (strip s) = strip s).
  { unfold strip. destruct (rstrip (lstrip s)) as [|d r] eqn:Hr; [reflexivity|].
    destruct (rstrip_head _ Hr) as [t Ht]. apply skip_head in Ht.
    unfold lstrip at 1. simpl. now rewrite Ht. }
  rewrite L. unfold strip, rstrip.
  now rewrite rev_involutive, skip_skip.
Qed.

(** X1: normalizing never makes a text longer, so a raw text under the
    threshold stays under it. *)
Theorem normalize_text_no_longer (s : option str) :
  len (_normalize_text s) <= len (or_empty s).
Proof.
  destruct s as [s|]; [|exact (le_n 0)].
  rewrite normalize_refines_spec. unfold spec_normalize, len. simpl.
  pose proof (strip_length (collapse_runs s)).
  pose proof (collapse_runs_length s). lia.
Qed.

Lemma normalize_text_keeps_nonspace_aux (s : str) :
  filter nonspace (_normalize_text (Some s)) = filter nonspace s.
Proof.
  rewrite normalize_refines_spec. unfold spec_normalize, strip.
  now rewrite filter_nonspace_rstrip, filter_nonspace_lstrip,
    filter_nonspace_collapse.
Qed.

(** X2: normalizing keeps the non-whitespace characters, all of them and
    in their order; only whitespace is dropped or replaced. *)
Theorem normalize_text_keeps_nonspace (s : str) :
  filter nonspace (_normalize_text (Some s)) = filter nonspace s.
Proof. exact (normalize_text_keeps_nonspace_aux s). Qed.

(** X3: the texts normalization leaves unchanged are exactly the
    normalized ones. *)
Theorem normalize_text_fixed_points (t : str) :
  _normalize_text (Some t) = t <-> is_normalized t = true.
Proof.
  split.
  - intros <-. rewrite normalize_refines_spec.
    apply spec_normalize_normalized.
  - apply join_split_normalized.
Qed.

(** X4: the normalized text is empty exactly when the input has nothing
    but whitespace. *)
Theorem normalize_text_empty_iff_blank (s : str) :
  _normalize_text (Some s) = [] <-> forallb isspace s = true.
Proof.
  split.
  - intros Hn. apply filter_nonspace_nil.
    rewrite <- normalize_text_keeps_nonspace_aux. now rewrite Hn.
  - intros Hs. rewrite normalize_eq. simpl. now rewrite (split_blank _ Hs).
Qed.

(** ** The runs of [process_article], case by case *)

Opaque analyze dispatch.

Section HandlerRuns.

Context {env : Collaborators}.

Lemma strip_present_nonblank t : strip t <> [] -> split t <> [].
Proof.
  intros Ht Hs. apply Ht. rewrite <- split_strip in Hs.
  destruct (strip t) as [|d r] eqn:E; [reflexivity|].
  unfold strip in E. destruct (rstrip_head _ E) as [t' Ht'].
  apply skip_head in Ht'. rewrite split_nonspace in Hs by assumption.
  discriminate.
Qed.

Lemma given_true_inv x :
  given x = true -> exists t, x = Some t /\ strip t <> [].
Proof.
  destruct x as [t|]; simpl; [|discriminate].
  intros G. apply andb_true_iff in G as [_ G].
  exists t. split; [reflexivity|]. intros E. now rewrite E in G.
Qed.

(** What the first step calls and what it yields. *)
Lemma pick_source_cases req :
  (exists t, text req = Some t /\ strip t <> [] /\
             pick_source req = ret (inr (strip t))) \/
  (given (text req) = false /\
   exists u, url req = Some u /\ strip u <> [] /\
     pick_source req =
     {| calls := [CallScrape (strip u) 7];
        outcome :=
          match newspaper_Article (strip u) 7 with
          | inl e => inr (inl (Error (lit "Failed to extract article from URL: "
                                        ++ exc_str e)))
          | inr body => inr (inr (strip (or_empty body)))
          end |}) \/
  (given (text req) = false /\ given (url req) = false /\
   pick_source req =
   ret (inl (Error (lit "Please provide either text or a valid URL.")))).
Proof.
  destruct (given (text req)) eqn:Gt.
  - left. destruct (given_true_inv _ Gt) as [t [Et Ht]].
    exists t. repeat split; try assumption. now apply pick_source_text.
  - right. destruct (given (url req)) eqn:Gu.
    + left. split; [reflexivity|].
      destruct (given_true_inv _ Gu) as [u [Eu Hu]].
      exists u. repeat split; try assumption.
      unfold pick_source. rewrite Gt, Gu, Eu.
      unfold _scrape_with_newspaper, try_except, bind, call, ret,
        default_timeout.
      simpl. now destruct (newspaper_Article (strip u) 7).
    + right. repeat split. unfold pick_source. now rewrite Gt, Gu.
Qed.

(** The three ways the analysis can go. *)
Lemma analyze_cases o raw :
  let text := _normalize_text (Some raw) in
  (len text < 200 /\
   analyze o raw =
   {| calls := [CallSentiment text];
      outcome := match analyze_sentiment text with
                 | inl e => inl (Raises (leaving e))
                 | inr s => inr (fallback s)
                 end |}) \/
  (200 <= len text /\
   exists f,
     outcome (dispatch o text) = inl f /\
     analyze o raw =
     {| calls := [CallSentiment text; CallBias text; CallTopics text];
        outcome := inl (leave f) |}) \/
  (200 <= len text /\
   exists s b k,
     analyze_sentiment text = inr s /\
     classify_political_bias text = inr b /\
     extract_topics text = inr k /\
     analyze o raw =
     {| calls := [CallSentiment text; CallBias text; CallTopics text;
                  CallFetch k];
        outcome :=
          match in_worker (fetch_articles k) with
          | inl f => inl (leave f)
          | inr related =>
            inr (Success {| keywords := k; sentiment := s; bias := b;
                            related_articles := firstn 7 related;
                            note := None |})
          end |}).
Proof.
  intros text.
  destruct (Nat.lt_ge_cases (len text) 200) as [L|L].
  - left. split; [exact L|]. now apply analyze_short.
  - right. rewrite (analyze_full o raw L). cbv zeta. fold text.
    destruct (outcome (dispatch o text)) as [f|[[s b] k]] eqn:G.
    + left. split; [exact L|]. now exists f.
    + right. split; [exact L|].
      destruct (dispatch_inr_inv _ _ G) as [Hs [Hb Hk]].
      exists s, b, k. now repeat split.
Qed.

(** The run of the handler is the first step followed, when it yields a
    text, by the analysis of that text. *)
Lemma process_article_cases req o :
  (exists msg,
     outcome (pick_source req) = inr (inl (Error msg)) /\
     process_article req o =
     {| calls := calls (pick_source req); outcome := inr (Error msg) |}) \/
  (exists raw,
     outcome (pick_source req) = inr (inr raw) /\
     process_article req o =
     {| calls := calls (pick_source req) ++ calls (analyze o raw);
        outcome := outcome (analyze o raw) |}).
Proof.
  destruct (pick_source_cases req) as [[t [_ [_ E]]]|[[_ [u [_ [_ E]]]]|[_ [_ E]]]].
  - right. exists (strip t). split; [now rewrite E|].
    apply process_article_picked. now rewrite E.
  - destruct (newspaper_Article (strip u) 7) as [e|body] eqn:N.
    + left. eexists. split; [now rewrite E|].
      unfold process_article, bind. rewrite E. simpl. reflexivity.
    + right. exists (strip (or_empty body)). split; [now rewrite E|].
      apply process_article_picked. now rewrite E.
  - left. eexists. split; [now rewrite E|].
    unfold process_article. rewrite E. reflexivity.
Qed.

(** The first step calls nothing but the scraper. *)
Lemma pick_source_only_scrapes req c :
  In c (calls (pick_source req)) -> is_scrape_call c = true.
Proof.
  destruct (pick_source_cases req) as [[t [_ [_ E]]]|[[_ [u [_ [_ E]]]]|[_ [_ E]]]];
    rewrite E; simpl; intuition (subst; reflexivity).
Qed.

End HandlerRuns.

(** ** Further properties of [process_article] *)

Section HandlerExtras.

Context {env : Collaborators}.


(** X6: when the sentiment analyzer raises on a short text, the handler
    raises after this one call and the fallback is not returned: the
    analyzer's exception leaves the handler, a [StopIteration] as
    [RuntimeError("coroutine raised StopIteration")]. *)
Theorem short_text_sentiment_failure req o raw e :
  outcome (pick_source req) = inr (inr raw) ->
  len (_normalize_text (Some raw)) < 200 ->
  analyze_sentiment (_normalize_text (Some raw)) = inl e ->
  process_article req o =
    {| calls := calls (pick_source req) ++
                [CallSentiment (_normalize_text (Some raw))];
       outcome :=
         inl (Raises (if exc_stop_iteration e
                      then coroutine_raised_StopIteration
                      else e)) |}.
Proof.
  intros Hsrc Hlen Hs.
  rewrite (process_article_picked req o Hsrc), (analyze_short o raw Hlen).
  simpl. now rewrite Hs.
Qed.

(** X7: a request text under 200 characters, whatever its whitespace,
    takes the short path: the sentiment analyzer on the normalized text is
    the only call. *)
Theorem short_raw_text_takes_short_path req o t :
  text req = Some t ->
  strip t <> [] ->
  len t < 200 ->
  calls (process_article req o) = [CallSentiment (_normalize_text (Some t))].
Proof.
  intros Et Ht Hlen.
  assert (En : _normalize_text (Some (strip t)) = _normalize_text (Some t))
    by (rewrite !normalize_eq; simpl; now rewrite split_strip).
  assert (Hsrc : outcome (pick_source req) = inr (inr (strip t)))
    by now rewrite (pick_source_text req Et Ht).
  assert (L : len (_normalize_text (Some (strip t))) < 200).
  { rewrite En, normalize_refines_spec. unfold spec_normalize, len in *.
    pose proof (strip_length (collapse_runs t)).
    pose proof (collapse_runs_length t). lia. }
  rewrite (process_article_picked req o Hsrc), (analyze_short o _ L).
  rewrite (pick_source_text req Et Ht), En. reflexivity.
Qed.

(** X8: two request texts that normalize to the same string are handled
    alike: same calls, same outcome; the urls play no part. *)
Theorem same_normal_form_same_run r1 r2 o t1 t2 :
  text r1 = Some t1 ->
  text r2 = Some t2 ->
  strip t1 <> [] ->
  _normalize_text (Some t1) = _normalize_text (Some t2) ->
  process_article r1 o = process_article r2 o.
Proof.
  intros E1 E2 H1 Hn.
  assert (Hsplit : split t1 = split t2).
  { rewrite !normalize_eq in Hn. simpl in Hn.
    rewrite <- (split_join (split_words t1)), Hn.
    apply split_join, split_words. }
  assert (H2 : strip t2 <> []).
  { intros E. apply (strip_present_nonblank _ H1). rewrite Hsplit.
    apply split_blank, strip_nil_blank, E. }
  assert (P : forall r t, text r = Some t -> strip t <> [] ->
                          process_article r o = analyze o (strip t)).
  { intros r t Er Hr. unfold process_article.
    rewrite (pick_source_text r Er Hr). now rewrite bind_ret_l. }
  rewrite (P r1 t1 E1 H1), (P r2 t2 E2 H2).
  apply analyze_normal_form.
  rewrite !normalize_eq. simpl. now rewrite !split_strip, Hsplit.
Qed.

(** X9: whatever text reaches an analyzer is normalized. *)
Theorem analyzers_get_normalized_text req o t :
  In (CallSentiment t) (calls (process_article req o)) \/
  In (CallBias t) (calls (process_article req o)) \/
  In (CallTopics t) (calls (process_article req o)) ->
  is_normalized t = true.
Proof.
  assert (N : forall raw, is_normalized (_normalize_text (Some raw)) = true).
  { intros raw. rewrite normalize_refines_spec.
    apply spec_normalize_normalized. }
  assert (G : forall c, In c (calls (process_article req o)) ->
                        is_analysis_call c = true ->
                        exists raw, c = CallSentiment (_normalize_text (Some raw))
                                 \/ c = CallBias (_normalize_text (Some raw))
                                 \/ c = CallTopics (_normalize_text (Some raw))).
  { intros c Hin Hc.
    destruct (process_article_cases req o) as [[msg [_ E]]|[raw [_ E]]];
      rewrite E in Hin; simpl in Hin.
    - apply pick_source_only_scrapes in Hin. destruct c; discriminate.
    - apply in_app_or in Hin as [Hin|Hin].
      + apply pick_source_only_scrapes in Hin. destruct c; discriminate.
      + exists raw.
        destruct (analyze_cases o raw) as [[_ A]|[[_ [e [_ A]]]|[_ [s [b [k [_ [_ [_ A]]]]]]]]];
          rewrite A in Hin; simpl in Hin;
          intuition (subst; try discriminate; auto). }
  intros [H|[H|H]]; destruct (G _ H eq_refl) as [raw [E|[E|E]]];
    inversion E; apply N.
Qed.

(** X10: the bias classifier and the topic extractor are never called on
    a text shorter than 200 characters. *)
Theorem bias_and_topics_only_on_long_text req o t :
  In (CallBias t) (calls (process_article req o)) \/
  In (CallTopics t) (calls (process_article req o)) ->
  200 <= len t.
Proof.
  assert (G : forall c, In c (calls (process_article req o)) ->
                        (c = CallBias t \/ c = CallTopics t) -> 200 <= len t).
  { intros c Hin Hc.
    destruct (process_article_cases req o) as [[msg [_ E]]|[raw [_ E]]];
      rewrite E in Hin; simpl in Hin.
    - apply pick_source_only_scrapes in Hin.
      destruct Hc; subst; discriminate.
    - apply in_app_or in Hin as [Hin|Hin].
      + apply pick_source_only_scrapes in Hin.
        destruct Hc; subst; discriminate.
      + destruct (analyze_cases o raw) as [[_ A]|[[L [e [_ A]]]|[L [s [b [k [_ [_ [_ A]]]]]]]]];
          rewrite A in Hin; simpl in Hin;
          destruct Hc; subst;
          intuition (try discriminate;
                     match goal with
                     | H : _ = _ |- _ => injection H as <-; exact L
                     end). }
  intros [H|H]; apply (G _ H); auto.
Qed.


End HandlerExtras.

Section HandlerSchedules.

Context {env : Collaborators}.

Lemma dispatch_inr_any o1 o2 txt r :
  outcome (dispatch o1 txt) = inr r -> outcome (dispatch o2 txt) = inr r.
Proof.
  destruct r as [[s b] k]. intros D. apply dispatch_inr_inv in D.
  destruct D as [Hs [Hb Hk]]. now apply dispatch_all_return.
Qed.

(** X12: the calls a request makes do not depend on the order in which the
    worker threads finish. *)
Theorem calls_independent_of_schedule req o1 o2 :
  calls (process_article req o1) = calls (process_article req o2).
Proof.
  destruct (process_article_cases req o1) as [[m1 [P1 E1]]|[raw1 [P1 E1]]];
  destruct (process_article_cases req o2) as [[m2 [P2 E2]]|[raw2 [P2 E2]]];
    rewrite E1, E2; simpl; try reflexivity; try congruence.
  assert (raw2 = raw1) by congruence. subst raw2. f_equal.
  destruct (analyze_cases o1 raw1) as [[L1 A1]|[[L1 [e1 [G1 A1]]]|[L1 [s1 [b1 [k1 [Hs1 [Hb1 [Hk1 A1]]]]]]]]];
  destruct (analyze_cases o2 raw1) as [[L2 A2]|[[L2 [e2 [G2 A2]]]|[L2 [s2 [b2 [k2 [Hs2 [Hb2 [Hk2 A2]]]]]]]]];
    rewrite A1, A2; simpl; try reflexivity; try lia.
  - rewrite (dispatch_all_return o1 _ Hs2 Hb2 Hk2) in G1. discriminate.
  - rewrite (dispatch_all_return o2 _ Hs1 Hb1 Hk1) in G2. discriminate.
  - congruence.
Qed.

(** X13: a request that gets a response under one order of completion has
    the same run under every order. *)
Theorem response_independent_of_schedule req o1 o2 r :
  outcome (process_article req o1) = inr r ->
  process_article req o2 = process_article req o1.
Proof.
  intros R.
  destruct (process_article_cases req o1) as [[m1 [P1 E1]]|[raw1 [P1 E1]]];
  destruct (process_article_cases req o2) as [[m2 [P2 E2]]|[raw2 [P2 E2]]];
    rewrite E1 in *; rewrite E2; simpl in *; try congruence.
  assert (raw2 = raw1) by congruence. subst raw2.
  destruct (analyze_cases o1 raw1) as [[L1 A1]|[[L1 [e1 [G1 A1]]]|[L1 [s1 [b1 [k1 [Hs1 [Hb1 [Hk1 A1]]]]]]]]];
  destruct (analyze_cases o2 raw1) as [[L2 A2]|[[L2 [e2 [G2 A2]]]|[L2 [s2 [b2 [k2 [Hs2 [Hb2 [Hk2 A2]]]]]]]]];
    rewrite A1 in *; rewrite A2; simpl in *;
    try reflexivity; try lia; try discriminate.
  - rewrite (dispatch_all_return o2 _ Hs1 Hb1 Hk1) in G2. discriminate.
  - assert (k2 = k1) by congruence. assert (s2 = s1) by congruence.
    assert (b2 = b1) by congruence. subst. reflexivity.
Qed.

(** X14: when two analyzers fail, which exception leaves the handler is
    decided by the order of completion, not by the request: with the
    sentiment analyzer and the bias classifier both raising (neither a
    [StopIteration]), it is the sentiment analyzer's when that one
    finishes first and the classifier's when the classifier does. *)
Theorem racing_failures req raw e1 e2 :
  outcome (pick_source req) = inr (inr raw) ->
  200 <= len (_normalize_text (Some raw)) ->
  analyze_sentiment (_normalize_text (Some raw)) = inl e1 ->
  classify_political_bias (_normalize_text (Some raw)) = inl e2 ->
  exc_stop_iteration e1 = false ->
  exc_stop_iteration e2 = false ->
  outcome (process_article req SBT) = inl (Raises e1) /\
  outcome (process_article req BST) = inl (Raises e2).
Proof.
  intros Hsrc Hlen Hs Hb H1 H2.
  rewrite !(process_article_picked req _ Hsrc), !(analyze_full _ raw Hlen).
  cbv zeta. rewrite !dispatch_eq, Hs, Hb.
  rewrite (in_worker_ordinary e1 H1), (in_worker_ordinary e2 H2).
  unfold gather. simpl. unfold leaving. rewrite H1, H2. split; reflexivity.
Qed.





End HandlerSchedules.

Section HandlerShapes.

Context {env : Collaborators}.

(** X16: an error response is one of the two messages of the first step,
    and then no analyzer and no fetch was called: either nothing was, or
    the scraper was, once, and raised. *)
Theorem error_response_means_no_analysis req o msg :
  outcome (process_article req o) = inr (Error msg) ->
  (msg = lit "Please provide either text or a valid URL." /\
   calls (process_article req o) = []) \/
  (exists u e,
     url req = Some u /\
     newspaper_Article (strip u) 7 = inl e /\
     msg = lit "Failed to extract article from URL: " ++ exc_str e /\
     calls (process_article req o) = [CallScrape (strip u) 7]).
Proof.
  intros R.
  destruct (process_article_cases req o) as [[m [P E]]|[raw [P E]]];
    rewrite E in *; simpl in R.
  - injection R as ->.
    destruct (pick_source_cases req) as [[t [_ [_ S]]]|[[_ [u [Eu [_ S]]]]|[_ [_ S]]]];
      rewrite S in *; simpl in *.
    + discriminate.
    + right. destruct (newspaper_Article (strip u) 7) as [e|body] eqn:N;
        [|discriminate].
      exists u, e. repeat split; congruence.
    + left. split; congruence.
  - exfalso.
    destruct (analyze_cases o raw) as [[_ A]|[[_ [e [_ A]]]|[_ [s [b [k [_ [_ [_ A]]]]]]]]];
      rewrite A in R; simpl in R.
    + destruct (analyze_sentiment _); discriminate.
    + discriminate.
    + destruct (in_worker (fetch_articles k)); discriminate.
Qed.

(** X17: a successful response carries a note exactly when it is the
    short-text fallback: with a note, the keywords, bias and related
    articles are the fixed ones and nothing was fetched; without one, the
    fetch was called on the keywords of the response. *)
Theorem note_marks_fallback req o a :
  outcome (process_article req o) = inr (Success a) ->
  (note a = Some short_note /\
   keywords a = [lit "news"; lit "world"; lit "article"] /\
   bias a = lit "center" /\
   related_articles a = [] /\
   filter is_fetch_call (calls (process_article req o)) = []) \/
  (note a = None /\
   In (CallFetch (keywords a)) (calls (process_article req o))).
Proof.
  intros R.
  assert (Hpick : filter is_fetch_call (calls (pick_source req)) = []).
  { destruct (pick_source_cases req) as [[t [_ [_ S]]]|[[_ [u [_ [_ S]]]]|[_ [_ S]]]];
      now rewrite S. }
  destruct (process_article_cases req o) as [[m [P E]]|[raw [P E]]];
    rewrite E in *; simpl in R; [discriminate|].
  destruct (analyze_cases o raw) as [[_ A]|[[_ [e [_ A]]]|[_ [s [b [k [_ [_ [_ A]]]]]]]]];
    rewrite A in *; simpl in R.
  - left. destruct (analyze_sentiment _) as [|s]; [discriminate|].
    injection R as <-. simpl. rewrite filter_app, Hpick. now repeat split.
  - discriminate.
  - right. destruct (in_worker (fetch_articles k)) as [|related];
      [discriminate|].
    assert (Ea : note a = None /\ keywords a = k)
      by (injection R as R; rewrite <- R; split; reflexivity).
    destruct Ea as [En Ek]. split; [exact En|]. rewrite Ek.
    simpl. apply in_or_app. right. simpl. tauto.
Qed.

(** X18: a request by url whose scrape returns a non-blank text is handled
    as the request carrying that text would be, after the one call to the
    scraper. *)
Theorem url_request_as_its_text req o u body :
  blank (text req) ->
  url req = Some u ->
  strip u <> [] ->
  newspaper_Article (strip u) 7 = inr (Some body) ->
  strip body <> [] ->
  process_article req o =
    {| calls := CallScrape (strip u) 7 ::
                calls (process_article {| text := Some body; url := None |} o);
       outcome :=
         outcome (process_article {| text := Some body; url := None |} o) |}.
Proof.
  intros Bt Eu Hu Hn Hb.
  assert (T : process_article {| text := Some body; url := None |} o
              = analyze o (strip body)).
  { unfold process_article.
    rewrite (@pick_source_text _ {| text := Some body; url := None |} body
               eq_refl Hb).
    now rewrite bind_ret_l. }
  rewrite T. unfold process_article.
  rewrite (pick_source_url req Bt Eu Hu), Hn. unfold bind. reflexivity.
Qed.

(** X19: the scraper is called at most once per request, and only when
    the text is absent or blank: then on the trimmed url, with a timeout
    of 7, before anything else. *)
Theorem scraper_called_at_most_once req o :
  filter is_scrape_call (calls (process_article req o)) = [] \/
  exists u rest,
    blank (text req) /\
    url req = Some u /\
    strip u <> [] /\
    calls (process_article req o) = CallScrape (strip u) 7 :: rest /\
    filter is_scrape_call rest = [].
Proof.
  assert (A : forall raw, filter is_scrape_call (calls (analyze o raw)) = []).
  { intros raw.
    destruct (analyze_cases o raw) as [[_ A]|[[_ [e [_ A]]]|[_ [s [b [k [_ [_ [_ A]]]]]]]]];
      now rewrite A. }
  assert (B : given (text req) = false -> blank (text req)).
  { destruct (text req) as [t|]; simpl; [|trivial].
    intros G. destruct (strip t) eqn:E; [reflexivity|].
    destruct t; [discriminate|]. discriminate. }
  destruct (pick_source_cases req) as [[t [_ [_ S]]]|[[Gt [u [Eu [Hu S]]]]|[_ [_ S]]]];
  destruct (process_article_cases req o) as [[m [P E]]|[raw [P E]]];
    rewrite E, S in *; simpl.
  - now left.
  - left. apply A.
  - right. exists u, []. now repeat split; auto.
  - right. exists u, (calls (analyze o raw)). repeat split; auto.
  - now left.
  - left. apply A.
Qed.

(** X20: a request makes at most five outside calls. *)
Theorem at_most_five_calls req o :
  List.length (calls (process_article req o)) <= 5.
Proof.
  assert (A : forall raw, List.length (calls (analyze o raw)) <= 4).
  { intros raw.
    destruct (analyze_cases o raw) as [[_ A]|[[_ [e [_ A]]]|[_ [s [b [k [_ [_ [_ A]]]]]]]]];
      rewrite A; simpl; lia. }
  assert (P : List.length (calls (pick_source req)) <= 1).
  { destruct (pick_source_cases req) as [[t [_ [_ S]]]|[[_ [u [_ [_ S]]]]|[_ [_ S]]]];
      rewrite S; simpl; lia. }
  destruct (process_article_cases req o) as [[m [_ E]]|[raw [_ E]]];
    rewrite E; simpl; [lia|].
  rewrite length_app. specialize (A raw). lia.
Qed.

(** X21: what [_scrape_with_newspaper] returns is trimmed: it is the
    article text without whitespace at either end (the empty string for an
    article without text), after exactly one call to the library. *)
Theorem scrape_returns_trimmed u timeout t :
  outcome (_scrape_with_newspaper u timeout) = inr t ->
  strip t = t /\
  (exists body, newspaper_Article u timeout = inr body /\
                t = strip (or_empty body)) /\
  calls (_scrape_with_newspaper u timeout) = [CallScrape u timeout].
Proof.
  unfold _scrape_with_newspaper, bind, call, ret. simpl.
  destruct (newspaper_Article u timeout) as [e|body]; simpl; [discriminate|].
  intros [= <-]. split; [apply strip_strip|]. split; [|reflexivity].
  now exists body.
Qed.

End HandlerShapes.

(** ** The further properties on concrete requests *)

Transparent analyze dispatch.

Ltac by_computation :=
  first [ apply Nat.leb_le; vm_compute; reflexivity
        | apply Nat.ltb_lt; vm_compute; reflexivity
        | vm_compute; reflexivity
        | vm_compute; discriminate
        | exact I ].


Lemma short_text_sentiment_failure_witness :
  outcome (process_article (env := sentiment_exhausted)
             {| text := Some short_article; url := None |} SBT)
  = inl (Raises coroutine_raised_StopIteration).
Proof.
  refine (f_equal (@outcome _)
            (short_text_sentiment_failure (env := sentiment_exhausted)
               {| text := Some short_article; url := None |} SBT
               (raw := strip short_article) (e := iterator_exhausted)
               _ _ _));
    by_computation.
Defined.

Lemma short_raw_text_takes_short_path_witness :
  calls (process_article (env := healthy)
           {| text := Some short_article; url := Some dead_link |} TSB)
  = [CallSentiment (_normalize_text (Some short_article))].
Proof.
  apply (short_raw_text_takes_short_path (env := healthy)
           {| text := Some short_article; url := Some dead_link |} TSB
           (t := short_article)); by_computation.
Defined.

Lemma same_normal_form_same_run_witness :
  process_article (env := healthy)
    {| text := Some short_article; url := Some dead_link |} SBT
  = process_article (env := healthy)
      {| text := Some respaced_article; url := None |} SBT.
Proof.
  apply (same_normal_form_same_run (env := healthy)
           {| text := Some short_article; url := Some dead_link |}
           {| text := Some respaced_article; url := None |} SBT
           (t1 := short_article) (t2 := respaced_article));
    by_computation.
Defined.

Lemma analyzers_get_normalized_text_witness :
  is_normalized (_normalize_text (Some (strip short_article))) = true.
Proof.
  apply (analyzers_get_normalized_text (env := healthy)
           {| text := Some short_article; url := None |} SBT).
  left. vm_compute. left. reflexivity.
Defined.

Lemma bias_and_topics_only_on_long_text_witness :
  200 <= len (_normalize_text (Some (strip long_article))).
Proof.
  apply (bias_and_topics_only_on_long_text (env := healthy)
           {| text := Some long_article; url := None |} SBT).
  left. vm_compute. right. left. reflexivity.
Defined.


Lemma response_independent_of_schedule_witness :
  process_article (env := healthy)
    {| text := Some long_article; url := None |} TBS
  = process_article (env := healthy)
      {| text := Some long_article; url := None |} SBT.
Proof.
  apply (response_independent_of_schedule (env := healthy)
           {| text := Some long_article; url := None |} SBT TBS
           (r := Success (@Build_Analysis healthy
                            [lit "economy"; lit "rates"]
                            (lit "positive") (lit "left")
                            [1; 2; 3; 4; 5; 6; 7]%N None))).
  by_computation.
Defined.

Lemma racing_failures_witness :
  outcome (process_article (env := analyzers_down)
             {| text := Some long_article; url := None |} SBT)
    = inl (Raises model_failed) /\
  outcome (process_article (env := analyzers_down)
             {| text := Some long_article; url := None |} BST)
    = inl (Raises classifier_failed).
Proof.
  apply (racing_failures (env := analyzers_down)
           {| text := Some long_article; url := None |}
           (raw := strip long_article)); by_computation.
Defined.


Lemma error_response_means_no_analysis_witness :
  calls (process_article (env := unreachable_site)
           {| text := None; url := Some dead_link |} SBT)
  = [CallScrape (strip dead_link) 7].
Proof.
  assert (R : outcome (process_article (env := unreachable_site)
                         {| text := None; url := Some dead_link |} SBT)
              = inr (Error (lit "Failed to extract article from URL: "
                              ++ exc_str download_failed)))
    by (vm_compute; reflexivity).
  destruct (error_response_means_no_analysis (env := unreachable_site)
              {| text := None; url := Some dead_link |} SBT R)
    as [[Hm _]|[u [e [Eu [_ [_ Hc]]]]]].
  - vm_compute in Hm. discriminate Hm.
  - injection Eu as <-. exact Hc.
Defined.

Lemma note_marks_fallback_witness :
  filter is_fetch_call
    (calls (process_article (env := healthy)
              {| text := Some short_article; url := None |} SBT)) = [].
Proof.
  assert (R : outcome (process_article (env := healthy)
                         {| text := Some short_article; url := None |} SBT)
              = inr (Success (@Build_Analysis healthy
                                [lit "news"; lit "world"; lit "article"]
                                (lit "positive") (lit "center") []
                                (Some short_note))))
    by (vm_compute; reflexivity).
  destruct (note_marks_fallback (env := healthy)
              {| text := Some short_article; url := None |} SBT R)
    as [[_ [_ [_ [_ Hc]]]]|[Hn _]].
  - exact Hc.
  - discriminate Hn.
Defined.

Lemma url_request_as_its_text_witness :
  process_article (env := article_site)
    {| text := Some []; url := Some dead_link |} SBT =
  {| calls := CallScrape (strip dead_link) 7 ::
              calls (process_article (env := article_site)
                       {| text := Some short_article; url := None |} SBT);
     outcome :=
       outcome (process_article (env := article_site)
                  {| text := Some short_article; url := None |} SBT) |}.
Proof.
  apply (url_request_as_its_text (env := article_site)
           {| text := Some []; url := Some dead_link |} SBT
           (u := dead_link) (body := short_article)); by_computation.
Defined.

Lemma scrape_returns_trimmed_witness :
  strip (lit "Markets   rallied today.") = lit "Markets   rallied today.".
Proof.
  apply (scrape_returns_trimmed (env := article_site)
           (lit "https://example.com/markets") 7).
  by_computation.
Defined.
